(** * Recipe search application: the search / fetch / render data flow

    A shallow embedding of the two [App] components of [src/App.js]:

    - [Legacy]: the component built on [useState] and [useEffect], whose
      effect calls [getRecipes] whenever [query] changes;
    - [Modern]: the component built on [useQuery], whose query function is
      [fetchRecipes] and whose query key is [['recipes', query]].

    React state is a record, an event handler is a function on that record,
    and the component tree is run by a step function over a system state
    that also holds what the runtime holds: the requests in flight, the
    dependency of the last effect run (or the observed query key) and the
    log of the requests sent.  JavaScript numbers are IEEE 754 doubles,
    modelled by [spec_float] at precision 53. *)

From Stdlib Require Import ZArith Ascii String Floats.SpecFloat.
From stdpp Require Import gmap strings list.

Local Open Scope string_scope.

(** ** JavaScript numbers *)

Module Js.

Definition prec : Z := 53.
Definition emax : Z := 1024.

Definition number := spec_float.

(** The integer [n] as a double. *)
Definition of_Z (n : Z) : number := binary_normalize prec emax n 0 false.

(** [x / y]. *)
Definition div (x y : number) : number := SFdiv prec emax x y.

(** [ToBoolean] on a number: [+0], [-0] and [NaN] are falsy. *)
Definition truthy (x : number) : bool :=
  match x with
  | S754_zero _ | S754_nan => false
  | S754_infinity _ | S754_finite _ _ _ => true
  end.

(** [ToBoolean] on an optional property of type number: [undefined] is
    falsy. *)
Definition truthy_opt (x : option number) : bool :=
  match x with
  | None => false
  | Some v => truthy v
  end.

(** [x || d] for an optional number [x] and a number [d]. *)
Definition or_else (x : option number) (d : number) : number :=
  match x with
  | Some v => if truthy v then v else d
  | None => d
  end.

Definition is_zero (x : number) : bool :=
  match x with
  | S754_zero _ => true
  | _ => false
  end.

Definition is_nan (x : number) : bool :=
  match x with
  | S754_nan => true
  | _ => false
  end.

(** [Math.round(x)]: the integer nearest to [x], ties towards plus
    infinity, that is [floor(x + 1/2)] computed exactly; [NaN], the
    infinities and the zeros are returned as they are, and a result that
    is zero keeps the sign of [x]. *)
Definition Math_round (x : number) : number :=
  match x with
  | S754_finite s m e =>
      if (0 <=? e)%Z then x
      else
        let n := ((2 * cond_Zopp s (Zpos m) + 2 ^ (- e)) / 2 ^ (- e + 1))%Z in
        if (n =? 0)%Z then S754_zero s else of_Z n
  | _ => x
  end.

(** What an [await] yields: the value of a fulfilled promise or the
    message of the error a rejected one carries. *)
Inductive Settled (A : Type) : Type :=
| Fulfilled (value : A)
| Rejected (message : string).
Global Arguments Fulfilled {A} value.
Global Arguments Rejected {A} message.

End Js.

(** ** The component built on [useState] and [useEffect] *)

Module Legacy.
Import Js.

(** The fields of a hit that the component reads. *)
Record Ingredient := { text : string }.

Record Recipe := {
  label : string;
  calories : number;
  image : string;
  ingredients : list Ingredient
}.

Record RecipeHit := { recipe : Recipe }.

(** What [await response.json()] yields, as far as [data.hits] goes: a
    rejection when the body does not parse; the value [null], on which
    reading [hits] throws a [TypeError] (of the given message); or a value
    other than [null], whose property [hits] is read ([undefined] when the
    value has no such property). *)
Inductive Json :=
| Unparseable (message : string)
| ParsedNull (message : string)
| Parsed (hits : option (list RecipeHit)).

Record Response := { ok : bool; json : Json }.

(** What [await fetch(...)] yields: a rejection when the request could not
    be sent or received, else the response, whatever its status. *)
Inductive Outcome :=
| NetworkError (message : string)
| Responds (r : Response).

(** The three [useState] cells.  [recipes] is [None] when it holds
    [undefined]. *)
Record State := {
  recipes : option (list RecipeHit);
  search : string;
  query : string
}.

Definition initial : State :=
  {| recipes := Some []; search := ""; query := "chicken" |}.

Definition setRecipes (v : option (list RecipeHit)) (s : State) : State :=
  {| recipes := v; search := search s; query := query s |}.

Definition setSearch (v : string) (s : State) : State :=
  {| recipes := recipes s; search := v; query := query s |}.

Definition setQuery (v : string) (s : State) : State :=
  {| recipes := recipes s; search := search s; query := v |}.

(** [getSearch]: both updates read the [search] of the render the handler
    was created in. *)
Definition getSearch (s : State) : State :=
  setSearch "" (setQuery (search s) s).

Definition updateSearch (value : string) (s : State) : State :=
  setSearch value s.

(** The second half of [getRecipes], from the outcome of the [fetch] to the
    value handed to [setRecipes].  The status of the response is not
    looked at; [data.hits] throws inside [getRecipes] when [data] is
    [null], and [setRecipes] is not reached then. *)
Definition getRecipes_settle (o : Outcome) : Settled (option (list RecipeHit)) :=
  match o with
  | NetworkError m => Rejected m
  | Responds r =>
      match json r with
      | Unparseable m => Rejected m
      | ParsedNull m => Rejected m
      | Parsed hits => Fulfilled hits
      end
  end.

(** The rendered tree: the value of the search bar and the children of
    [<div className="recipes">]. *)
Inductive Element :=
| RecipeElement (key : nat) (title : string) (cal : number) (img : string)
    (ingr : list Ingredient).

Record View := { search_bar : string; recipes_div : list Element }.

(** [None] when rendering throws: [recipes.map] on [undefined]. *)
Definition render (s : State) : option View :=
  match recipes s with
  | None => None
  | Some hits =>
      Some {| search_bar := search s;
              recipes_div :=
                imap (fun index hit =>
                        RecipeElement index (label (recipe hit))
                          (calories (recipe hit)) (image (recipe hit))
                          (ingredients (recipe hit))) hits |}
  end.

Section Env.

Variables APP_ID APP_KEY : string.

Definition url (q : string) : string :=
  "https://api.edamam.com/search?q=" +:+ q +:+ "&app_id=" +:+ APP_ID
    +:+ "&app_key=" +:+ APP_KEY.

(** The component with what the runtime holds for it: whether it is
    still mounted, the dependency list of the last effect run, the
    requests in flight (by identifier), the URLs requested so far, and
    the rejections of promises nobody handles. *)
Record Sys := {
  state : State;
  mounted : bool;
  deps : option string;
  inflight : gmap nat string;
  nextId : nat;
  sent : list string;
  unhandled : list string
}.

Definition with_state (s : State) (sys : Sys) : Sys :=
  {| state := s; mounted := mounted sys; deps := deps sys;
     inflight := inflight sys; nextId := nextId sys; sent := sent sys;
     unhandled := unhandled sys |}.

(** The first half of [getRecipes]: the request for the [query] of the
    current render. *)
Definition getRecipes_fetch (sys : Sys) : Sys :=
  let u := url (query (state sys)) in
  {| state := state sys; mounted := mounted sys; deps := deps sys;
     inflight := <[nextId sys := u]> (inflight sys);
     nextId := S (nextId sys); sent := sent sys ++ [u];
     unhandled := unhandled sys |}.

(** [useEffect(() => { getRecipes() }, [query])]: runs after a render
    whose [query] differs from the one of the last run. *)
Definition useEffect (sys : Sys) : Sys :=
  if decide (deps sys = Some (query (state sys))) then sys
  else
    let sys' := getRecipes_fetch sys in
    {| state := state sys'; mounted := mounted sys';
       deps := Some (query (state sys)); inflight := inflight sys';
       nextId := nextId sys'; sent := sent sys';
       unhandled := unhandled sys' |}.

(** A state update: the component renders again with the new state and
    its effects run; a render that throws unmounts the tree. *)
Definition update (s : State) (sys : Sys) : Sys :=
  match render s with
  | Some _ => useEffect (with_state s sys)
  | None =>
      {| state := s; mounted := false; deps := deps sys;
         inflight := inflight sys; nextId := nextId sys;
         sent := sent sys; unhandled := unhandled sys |}
  end.

Definition mount : Sys :=
  useEffect {| state := initial; mounted := true; deps := None;
               inflight := ∅; nextId := 0; sent := [];
               unhandled := [] |}.

Inductive Event :=
| Change (value : string)
| Submit
| Settle (id : nat) (o : Outcome).

Definition step (sys : Sys) (e : Event) : Sys :=
  match e with
  | Change value =>
      if mounted sys then update (updateSearch value (state sys)) sys
      else sys
  | Submit =>
      if mounted sys then update (getSearch (state sys)) sys else sys
  | Settle id o =>
      match inflight sys !! id with
      | None => sys
      | Some _ =>
          let sys' :=
            {| state := state sys; mounted := mounted sys;
               deps := deps sys; inflight := delete id (inflight sys);
               nextId := nextId sys; sent := sent sys;
               unhandled := unhandled sys |} in
          match getRecipes_settle o with
          | Fulfilled hits =>
              if mounted sys' then update (setRecipes hits (state sys')) sys'
              else sys'
          | Rejected m =>
              {| state := state sys'; mounted := mounted sys';
                 deps := deps sys'; inflight := inflight sys';
                 nextId := nextId sys'; sent := sent sys';
                 unhandled := unhandled sys' ++ [m] |}
          end
      end
  end.

Definition run (sys : Sys) (es : list Event) : Sys := foldl step sys es.

End Env.

(** While the component is mounted its last render succeeded and its
    effect has run for the [query] of that render. *)
Definition Inv (sys : Sys) : Prop :=
  mounted sys = true →
  is_Some (recipes (state sys)) ∧ deps sys = Some (query (state sys)).

End Legacy.

(** ** The component built on [useQuery] *)

Module Nutrient.
Record t := { label : string; quantity : Js.number; unit : string }.
End Nutrient.

Module Modern.
Import Js.

(** [interface Recipe]; an optional property is [None] when absent. *)
Record Recipe := {
  label : string;
  image : string;
  source : string;
  url : string;
  yield : option number;
  calories : number;
  totalTime : option number;
  mealType : option (list string);
  dietLabels : option (list string);
  healthLabels : option (list string);
  ingredientLines : option (list string);
  totalNutrients : option (gmap string Nutrient.t)
}.

Record RecipeHit := { recipe : Recipe }.

Record EdamamResponse := { hits : list RecipeHit }.

(** What [await response.json()] yields, at the declared type. *)
Inductive Json :=
| Unparseable (message : string)
| Parsed (data : EdamamResponse).

Record Response := { ok : bool; json : Json }.

Inductive Outcome :=
| NetworkError (message : string)
| Responds (r : Response).

Definition QueryKey : Type := string * string.

(** [fetchRecipes], first half: the URL requested for a query key. *)
Definition fetchRecipes_url (queryKey : QueryKey) : string :=
  let currentQuery := queryKey.2 in
  "https://www.edamam.com/api/recipes/v2?type=public&q=" +:+ currentQuery.

(** [fetchRecipes], second half: from the outcome of the [fetch] to the
    settlement of the promise the query function returns. *)
Definition fetchRecipes_settle (o : Outcome) : Settled (list RecipeHit) :=
  match o with
  | NetworkError m => Rejected m
  | Responds r =>
      if negb (ok r) then Rejected "Network response was not ok"
      else
        match json r with
        | Unparseable m => Rejected m
        | Parsed data => Fulfilled (hits data)
        end
  end.

(** The three [useState] cells. *)
Record State := {
  searchTerm : string;
  query : string;
  selectedRecipe : option Recipe
}.

Definition initial : State :=
  {| searchTerm := ""; query := "chicken"; selectedRecipe := None |}.

Definition setSearchTerm (v : string) (s : State) : State :=
  {| searchTerm := v; query := query s; selectedRecipe := selectedRecipe s |}.

Definition setQuery (v : string) (s : State) : State :=
  {| searchTerm := searchTerm s; query := v;
     selectedRecipe := selectedRecipe s |}.

Definition setSelectedRecipe (v : option Recipe) (s : State) : State :=
  {| searchTerm := searchTerm s; query := query s; selectedRecipe := v |}.

Definition handleSearchChange (value : string) (s : State) : State :=
  setSearchTerm value s.

Definition handleSearchSubmit (s : State) : State :=
  setSelectedRecipe None (setQuery (searchTerm s) s).

Definition handleKeyPress (key : string) (s : State) : State :=
  if decide (key = "Enter") then handleSearchSubmit s else s.

(** What the query cache holds for one key. *)
Record QueryState := {
  data : option (list RecipeHit);
  error : option string;
  fetching : bool;
  failureCount : nat
}.

(** What the component destructures from [useQuery]. *)
Record QueryResult := {
  recipes : option (list RecipeHit);
  isLoading : bool;
  result_error : option string
}.

(** A query is loading when it is fetching and has neither data nor an
    error yet; a key the cache has no entry for is about to be
    fetched. *)
Definition useQuery (cache : gmap QueryKey QueryState) (queryKey : QueryKey)
  : QueryResult :=
  match cache !! queryKey with
  | Some q =>
      {| recipes := data q;
         isLoading :=
           fetching q && negb (bool_decide (is_Some (data q)))
             && negb (bool_decide (is_Some (error q)));
         result_error := error q |}
  | None => {| recipes := None; isLoading := true; result_error := None |}
  end.

(** *** The rendered tree *)

Inductive TimeText := Minutes (t : number) | Quick.

Definition timeText (t : option number) : TimeText :=
  match t with
  | Some v => if truthy v then Minutes v else Quick
  | None => Quick
  end.

(** [xs && xs.length > 0]: the list when the block is rendered. *)
Definition nonEmpty (xs : option (list string)) : option (list string) :=
  match xs with
  | Some l => if bool_decide (0 < length l) then Some l else None
  | None => None
  end.

Record Card := {
  card_key : nat;
  card_image : string;
  card_label : string;
  card_time : TimeText;
  card_servings : number + string;
  card_cal : number;
  card_dietLabels : option (list string);
  card_url : string;
  card_onClick : Recipe
}.

Definition card (index : nat) (hit : RecipeHit) : Card :=
  let r := recipe hit in
  {| card_key := index;
     card_image := image r;
     card_label := label r;
     card_time := timeText (totalTime r);
     card_servings :=
       match yield r with
       | Some y => if truthy y then inl y else inr "4"
       | None => inr "4"
       end;
     card_cal := Math_round (div (calories r) (or_else (yield r) (of_Z 4)));
     card_dietLabels := take 2 <$> nonEmpty (dietLabels r);
     card_url := url r;
     card_onClick := r |}.

(** [label.replace(/-/g, ' ')]. *)
Fixpoint replace_dashes (s : string) : string :=
  match s with
  | EmptyString => EmptyString
  | String c s' =>
      String (if Ascii.eqb c "-"%char then " "%char else c) (replace_dashes s')
  end.

Record NutrientSpec := { key : string; nlabel : string; nunit : string }.

Definition nutrientSpecs : list NutrientSpec :=
  [ {| key := "ENERC_KCAL"; nlabel := "Calories"; nunit := "kcal" |};
    {| key := "PROCNT"; nlabel := "Protein"; nunit := "g" |};
    {| key := "FAT"; nlabel := "Fat"; nunit := "g" |};
    {| key := "CHOCDF"; nlabel := "Carbs"; nunit := "g" |};
    {| key := "FIBTG"; nlabel := "Fiber"; nunit := "g" |};
    {| key := "NA"; nlabel := "Sodium"; nunit := "mg" |} ].

Record NutrientCell := {
  cell_key : string;
  cell_value : number;
  cell_unit : string;
  cell_label : string
}.

(** One entry of the nutrient grid: [None] where the callback returns
    [null]. *)
Definition nutrientCell (selected : Recipe) (nutrient : NutrientSpec)
  : option NutrientCell :=
  match totalNutrients selected ≫= (.!! key nutrient) with
  | None => None
  | Some value =>
      Some {| cell_key := key nutrient;
              cell_value :=
                Math_round (div (Nutrient.quantity value)
                              (or_else (yield selected) (of_Z 4)));
              cell_unit := nunit nutrient;
              cell_label := nlabel nutrient |}
  end.

Record Detail := {
  detail_image : string;
  detail_label : string;
  detail_source : string;
  detail_servings : number;
  detail_cal : number;
  detail_time : TimeText;
  detail_mealType : string;
  detail_dietLabels : option (list string);
  detail_healthLabels : option (list string * option nat);
  detail_ingredients : list string;
  detail_nutrients : option (list (option NutrientCell));
  detail_url : string
}.

Definition detail (selected : Recipe) : Detail :=
  {| detail_image := image selected;
     detail_label := label selected;
     detail_source := source selected;
     detail_servings := or_else (yield selected) (of_Z 4);
     detail_cal :=
       Math_round (div (calories selected) (or_else (yield selected) (of_Z 4)));
     detail_time := timeText (totalTime selected);
     detail_mealType :=
       match mealType selected ≫= head with
       | Some m => if decide (m = "") then "Any time" else m
       | None => "Any time"
       end;
     detail_dietLabels := nonEmpty (dietLabels selected);
     detail_healthLabels :=
       (fun l =>
          (replace_dashes <$> take 8 l,
           if bool_decide (8 < length l) then Some (length l - 8) else None))
         <$> nonEmpty (healthLabels selected);
     detail_ingredients := default [] (ingredientLines selected);
     detail_nutrients :=
       (fun _ => nutrientCell selected <$> nutrientSpecs)
         <$> totalNutrients selected;
     detail_url := url selected |}.

Inductive Results :=
| Grid (cards : list Card)
| NoRecipesFound.

Inductive View :=
| LoadingScreen
| ErrorScreen (message : string)
| Page (input : string) (heading : string) (results : Results)
    (modal : option Detail).

(** The body of [App] after the hooks.  The heading is given by the query
    it is computed from. *)
Definition render (s : State) (r : QueryResult) : View :=
  if isLoading r then LoadingScreen
  else
    match result_error r with
    | Some message => ErrorScreen message
    | None =>
        Page (searchTerm s) (query s)
          match recipes r with
          | Some l =>
              if bool_decide (0 < length l) then Grid (imap card l)
              else NoRecipesFound
          | None => NoRecipesFound
          end
          (detail <$> selectedRecipe s)
    end.

(** The states of the fetch cycle, read off the result of [useQuery] in the
    order in which [App] tests it. *)
Inductive FetchStatus :=
| Idle
| Loading
| Success (results : list RecipeHit)
| Failure (reason : string).

Definition fetchStatus (r : QueryResult) : FetchStatus :=
  if isLoading r then Loading
  else
    match result_error r with
    | Some reason => Failure reason
    | None =>
        match recipes r with
        | Some l => Success l
        | None => Idle
        end
    end.

(** *** The component and the query client *)

Section Client.

(** The number of times the query client runs a failed query function
    again before it reports the error.  The client is created outside
    this file. *)
Variable retry : nat.

(** The component with what the query client holds for it: the cache,
    the key the observer of [useQuery] is subscribed to, the requests in
    flight (each for a key) and the URLs requested so far. *)
Record Sys := {
  state : State;
  cache : gmap QueryKey QueryState;
  observed : option QueryKey;
  inflight : gmap nat QueryKey;
  nextId : nat;
  sent : list string
}.

Definition queryKey (s : State) : QueryKey := ("recipes", query s).

Definition result (sys : Sys) : QueryResult :=
  useQuery (cache sys) (queryKey (state sys)).

Definition view (sys : Sys) : View := render (state sys) (result sys).

(** One call of the query function for [k]. *)
Definition request (k : QueryKey) (sys : Sys) : Sys :=
  {| state := state sys; cache := cache sys; observed := observed sys;
     inflight := <[nextId sys := k]> (inflight sys);
     nextId := S (nextId sys);
     sent := sent sys ++ [fetchRecipes_url k] |}.

Definition with_cache (c : gmap QueryKey QueryState) (sys : Sys) : Sys :=
  {| state := state sys; cache := c; observed := observed sys;
     inflight := inflight sys; nextId := nextId sys; sent := sent sys |}.

(** A fetch of the query [k] starts: the failure count is reset, and a
    query without data forgets its error. *)
Definition startFetch (k : QueryKey) (sys : Sys) : Sys :=
  let q :=
    match cache sys !! k with
    | Some q =>
        {| data := data q;
           error := match data q with Some _ => error q | None => None end;
           fetching := true; failureCount := 0 |}
    | None =>
        {| data := None; error := None; fetching := true;
           failureCount := 0 |}
    end in
  request k (with_cache (<[k := q]> (cache sys)) sys).

(** The observer after a render: when the key has changed it subscribes
    to the query of the new key, and fetches it unless a fetch of it is
    under way. *)
Definition observe (sys : Sys) : Sys :=
  let k := queryKey (state sys) in
  if decide (observed sys = Some k) then sys
  else
    let sys' :=
      {| state := state sys; cache := cache sys; observed := Some k;
         inflight := inflight sys; nextId := nextId sys;
         sent := sent sys |} in
    match cache sys !! k with
    | Some q => if fetching q then sys' else startFetch k sys'
    | None => startFetch k sys'
    end.

Definition update (s : State) (sys : Sys) : Sys :=
  observe {| state := s; cache := cache sys; observed := observed sys;
             inflight := inflight sys; nextId := nextId sys;
             sent := sent sys |}.

Definition mount : Sys :=
  observe {| state := initial; cache := ∅; observed := None;
             inflight := ∅; nextId := 0; sent := [] |}.

(** The query function of the request [id] settles. *)
Definition settle (id : nat) (o : Outcome) (sys : Sys) : Sys :=
  match inflight sys !! id with
  | None => sys
  | Some k =>
      let sys' :=
        {| state := state sys; cache := cache sys;
           observed := observed sys;
           inflight := delete id (inflight sys);
           nextId := nextId sys; sent := sent sys |} in
      match cache sys !! k with
      | None => sys'
      | Some q =>
          match fetchRecipes_settle o with
          | Fulfilled l =>
              with_cache
                (<[k := {| data := Some l; error := None;
                           fetching := false; failureCount := 0 |}]>
                   (cache sys)) sys'
          | Rejected m =>
              if bool_decide (failureCount q < retry) then
                request k
                  (with_cache
                     (<[k := {| data := data q; error := error q;
                                fetching := true;
                                failureCount := S (failureCount q) |}]>
                        (cache sys)) sys')
              else
                with_cache
                  (<[k := {| data := data q; error := Some m;
                             fetching := false;
                             failureCount := S (failureCount q) |}]>
                     (cache sys)) sys'
          end
      end
  end.

(** The events: what the user does on the page and the settlement of a
    request.  [ClickCard] stands for a click on a card or on its
    "View Details" button, [ClickClose] for either close button of the
    modal: each pair calls the same setter with the same argument.  What
    the query client does on its own account (a refetch when the window
    gets the focus or the network comes back) is not among them. *)
Inductive Event :=
| Change (value : string)
| Submit
| KeyPress (key : string)
| ClickCard (index : nat)
| ClickClose
| Settle (id : nat) (o : Outcome).

(** An event reaches a handler only when the element that carries the
    handler is in the rendered tree. *)
Definition step (sys : Sys) (e : Event) : Sys :=
  match e with
  | Settle id o => settle id o sys
  | _ =>
      match view sys with
      | Page _ _ results modal =>
          match e with
          | Change value => update (handleSearchChange value (state sys)) sys
          | Submit => update (handleSearchSubmit (state sys)) sys
          | KeyPress key => update (handleKeyPress key (state sys)) sys
          | ClickCard index =>
              match results with
              | Grid cards =>
                  match cards !! index with
                  | Some c =>
                      update
                        (setSelectedRecipe (Some (card_onClick c)) (state sys))
                        sys
                  | None => sys
                  end
              | NoRecipesFound => sys
              end
          | ClickClose =>
              match modal with
              | Some _ => update (setSelectedRecipe None (state sys)) sys
              | None => sys
              end
          | Settle _ _ => sys
          end
      | _ => sys
      end
  end.

Definition run (sys : Sys) (es : list Event) : Sys := foldl step sys es.

(** The observer is subscribed to the key of the last render. *)
Definition Inv (sys : Sys) : Prop :=
  observed sys = Some (queryKey (state sys)).

End Client.

End Modern.

(** ** Sample data *)

Module Sample.
Import Js.

Definition APP_ID : string := "app-id".
Definition APP_KEY : string := "app-key".

Definition legacyHit (name : string) : Legacy.RecipeHit :=
  {| Legacy.recipe :=
       {| Legacy.label := name; Legacy.calories := of_Z 800;
          Legacy.image := name +:+ ".jpg";
          Legacy.ingredients := [ {| Legacy.text := "salt" |} ] |} |}.

Definition legacyOk (l : list Legacy.RecipeHit) : Legacy.Outcome :=
  Legacy.Responds {| Legacy.ok := true; Legacy.json := Legacy.Parsed (Some l) |}.

Definition recipe (name : string) (servings : option number) : Modern.Recipe :=
  {| Modern.label := name;
     Modern.image := name +:+ ".jpg";
     Modern.source := "kitchen";
     Modern.url := "https://example.org/" +:+ name;
     Modern.yield := servings;
     Modern.calories := of_Z 800;
     Modern.totalTime := Some (of_Z 30);
     Modern.mealType := Some ["dinner"];
     Modern.dietLabels := Some ["Low-Carb"];
     Modern.healthLabels := Some ["Sugar-Conscious"; "Egg-Free"];
     Modern.ingredientLines := Some ["1 onion"; "2 eggs"];
     Modern.totalNutrients :=
       Some {[ "FAT" := {| Nutrient.label := "Fat";
                           Nutrient.quantity := of_Z 90;
                           Nutrient.unit := "g" |} ]} |}.

Definition hit (name : string) (servings : option number) : Modern.RecipeHit :=
  {| Modern.recipe := recipe name servings |}.

Definition ok (l : list Modern.RecipeHit) : Modern.Outcome :=
  Modern.Responds
    {| Modern.ok := true;
       Modern.json := Modern.Parsed {| Modern.hits := l |} |}.

End Sample.

(** * Properties of the [useState]/[useEffect] component *)

Section LegacyProperties.
Import Legacy.

Variables APP_ID APP_KEY : string.

Abbreviation step := (Legacy.step APP_ID APP_KEY).
Abbreviation run := (Legacy.run APP_ID APP_KEY).
Abbreviation mount := (Legacy.mount APP_ID APP_KEY).
Abbreviation useEffect := (Legacy.useEffect APP_ID APP_KEY).
Abbreviation update := (Legacy.update APP_ID APP_KEY).
Abbreviation url := (Legacy.url APP_ID APP_KEY).

Lemma useEffect_deps sys :
  deps (useEffect sys) = Some (query (state (useEffect sys))).
Proof. unfold Legacy.useEffect. case_decide; simpl; done. Qed.

Lemma useEffect_state sys : state (useEffect sys) = state sys.
Proof. unfold Legacy.useEffect. case_decide; done. Qed.

Lemma useEffect_mounted sys : mounted (useEffect sys) = mounted sys.
Proof. unfold Legacy.useEffect. case_decide; done. Qed.

Lemma legacy_render_Some s : is_Some (render s) ↔ is_Some (recipes s).
Proof.
  unfold render. destruct (recipes s); split; intros [? ?]; eauto; done.
Qed.

Lemma legacy_update_inv s sys : Inv (update s sys).
Proof.
  unfold Legacy.update, Inv.
  destruct (render s) eqn:Hr; simpl; [|done].
  rewrite useEffect_deps, useEffect_state. simpl. intros _. split; [|done].
  apply legacy_render_Some. rewrite Hr. eauto.
Qed.

Lemma legacy_step_inv sys e : Inv sys → Inv (step sys e).
Proof.
  intros Hinv. destruct e as [value| |id o]; simpl.
  - destruct (mounted sys); [apply legacy_update_inv | done].
  - destruct (mounted sys); [apply legacy_update_inv | done].
  - destruct (inflight sys !! id); [|done].
    destruct (getRecipes_settle o); simpl.
    + destruct (mounted sys) eqn:Hm; [apply legacy_update_inv|].
      unfold Inv. simpl. congruence.
    + exact Hinv.
Qed.

Lemma legacy_mount_inv : Inv mount.
Proof. unfold Inv. intros _. split; [by eexists | done]. Qed.

Lemma legacy_run_inv es : Inv (run mount es).
Proof.
  unfold Legacy.run. generalize legacy_mount_inv. generalize mount.
  induction es as [|e es IH]; intros sys Hs; simpl; [done|].
  apply IH, legacy_step_inv, Hs.
Qed.

(** A commit in a mounted component whose draft differs from the query
    requests the URL of the draft; one whose draft equals the query
    requests nothing. *)
Lemma legacy_submit_sent sys :
  Inv sys → mounted sys = true →
  let sys' := step sys Submit in
  query (state sys') = search (state sys) ∧
  search (state sys') = "" ∧
  sent sys' =
    (if decide (query (state sys) = search (state sys)) then sent sys
     else (sent sys ++ [url (search (state sys))])%list) ∧
  inflight sys' =
    (if decide (query (state sys) = search (state sys)) then inflight sys
     else <[nextId sys := url (search (state sys))]> (inflight sys)).
Proof.
  intros Hinv Hm. destruct (Hinv Hm) as [[l Hl] Hd].
  simpl. rewrite Hm. unfold Legacy.update, render. simpl. rewrite Hl.
  unfold Legacy.useEffect. simpl. rewrite Hd.
  destruct (decide (query (state sys) = search (state sys))) as [He|Hne].
  - rewrite decide_True by congruence. done.
  - rewrite decide_False by congruence. done.
Qed.

End LegacyProperties.

Section LegacyBehaviour.
Import Legacy.

Variables APP_ID APP_KEY : string.

Abbreviation step := (Legacy.step APP_ID APP_KEY).
Abbreviation run := (Legacy.run APP_ID APP_KEY).
Abbreviation mount := (Legacy.mount APP_ID APP_KEY).
Abbreviation url := (Legacy.url APP_ID APP_KEY).

Abbreviation respondsOk := Sample.legacyOk.

(** C1, on the [useEffect] component: the queries "a" and then "b" are
    committed, the response for "b" arrives first and the response for "a"
    last.  [getRecipes] hands every response to [setRecipes], so the list
    on display ends as the response for "a" although the committed query
    is "b". *)
Theorem legacy_stale_response_displayed (R1 R2 : list RecipeHit) :
  let sys :=
    run mount
      [Change "a"; Submit; Change "b"; Submit;
       Settle 2 (respondsOk R2); Settle 1 (respondsOk R1)] in
  sent sys = [url "chicken"; url "a"; url "b"] ∧
  query (state sys) = "b" ∧
  recipes (state sys) = Some R1 ∧
  render (state sys) = render {| recipes := Some R1; search := ""; query := "a" |}.
Proof. repeat split. Qed.

(** C2, on the [useEffect] component: a list [R] is on display, a new
    query is committed and its response has a status that is not OK.
    [getRecipes] does not test the status and the component has no failure
    state.  With a body that does not parse the rejection is handled by
    nobody and [R] stays on display; with a JSON body without [hits] the
    next render throws; with a JSON body with [hits] these are shown as
    results. *)
Theorem legacy_http_error_not_reported (R R' : list RecipeHit) (m : string) :
  let loaded := run mount [Settle 0 (respondsOk R); Change "x"; Submit] in
  let fails (body : Json) :=
    step loaded (Settle 1 (Responds {| ok := false; json := body |})) in
  (query (state (fails (Unparseable m))) = "x" ∧
   recipes (state (fails (Unparseable m))) = Some R ∧
   render (state (fails (Unparseable m))) = render (state loaded) ∧
   unhandled (fails (Unparseable m)) = [m]) ∧
  (render (state (fails (Parsed None))) = None ∧
   mounted (fails (Parsed None)) = false) ∧
  recipes (state (fails (Parsed (Some R')))) = Some R'.
Proof. repeat split. Qed.

(** C3, on the [useEffect] component: the request sent on mount fails in
    the network.  The promise of [getRecipes] is rejected and the effect
    has dropped it: the rejection is handled by nobody, and the state and
    the rendered tree are those of before. *)
Theorem legacy_rejection_unhandled (m : string) :
  let sys := step mount (Settle 0 (NetworkError m)) in
  unhandled sys = [m] ∧
  state sys = initial ∧
  render (state sys) = render (state mount).
Proof. repeat split. Qed.

(** C4, on the [useEffect] component: a success with an empty list of
    hits renders the container of the cards with no child; the tree has
    no other element than the search bar. *)
Theorem legacy_empty_results_blank_grid :
  let sys := step mount (Settle 0 (respondsOk [])) in
  recipes (state sys) = Some [] ∧
  render (state sys) = Some {| search_bar := ""; recipes_div := [] |}.
Proof. repeat split. Qed.

(** C6, amended: a commit of the empty draft is not validated away.  In
    every reachable state of the mounted component whose committed query
    is not already empty, submitting the empty draft makes the committed
    query empty and sends one request, for the URL of the empty query. *)
Theorem legacy_empty_commit_fetches (es : list Event) :
  let sys := run mount es in
  mounted sys = true →
  search (state sys) = "" →
  query (state sys) ≠ "" →
  query (state (step sys Submit)) = "" ∧
  sent (step sys Submit) = (sent sys ++ [url ""])%list ∧
  inflight (step sys Submit) !! nextId sys = Some (url "").
Proof.
  intros sys Hm Hs Hq.
  destruct (legacy_submit_sent APP_ID APP_KEY sys (legacy_run_inv _ _ es) Hm)
    as (H1 & _ & H2 & H3).
  rewrite H1, H2, H3, Hs. rewrite !decide_False by done.
  rewrite lookup_insert_eq. done.
Qed.

(** C6, the same for any draft: the condition under which a commit sends
    a request does not depend on the draft being empty. *)
Lemma legacy_commit_fetches (es : list Event) :
  let sys := run mount es in
  mounted sys = true →
  query (state sys) ≠ search (state sys) →
  sent (step sys Submit) = (sent sys ++ [url (search (state sys))])%list.
Proof.
  intros sys Hm Hq.
  destruct (legacy_submit_sent APP_ID APP_KEY sys (legacy_run_inv _ _ es) Hm)
    as (_ & _ & H2 & _).
  rewrite H2. by rewrite decide_False.
Qed.

(** C7, on the [useEffect] component: in every reachable state, a commit
    of a draft equal to the committed query sends nothing. *)
Lemma legacy_resubmit_sends_nothing (es : list Event) :
  let sys := run mount es in
  search (state sys) = query (state sys) →
  sent (step sys Submit) = sent sys ∧
  inflight (step sys Submit) = inflight sys.
Proof.
  intros sys Hs. destruct (mounted sys) eqn:Hm.
  - destruct (legacy_submit_sent APP_ID APP_KEY sys (legacy_run_inv _ _ es) Hm)
      as (_ & _ & H2 & H3).
    rewrite H2, H3. by rewrite !decide_True.
  - simpl. by rewrite Hm.
Qed.

(** C9: [getSearch] copies the draft into the query and resets the draft
    to the empty string, so the search bar of the next render is empty. *)
Theorem legacy_commit_clears_draft (s : State) :
  search (getSearch s) = "" ∧
  query (getSearch s) = search s ∧
  recipes (getSearch s) = recipes s ∧
  search_bar <$> render (getSearch s) = (fun _ => "") <$> render s.
Proof.
  repeat split. unfold render. simpl. by destruct (recipes s).
Qed.

End LegacyBehaviour.

(** C6, as stated, fails: after one commit of the empty draft the committed
    query is empty; a second commit of the empty draft sends nothing. *)
Lemma legacy_empty_commit_no_fetch :
  let sys :=
    Legacy.run Sample.APP_ID Sample.APP_KEY
      (Legacy.mount Sample.APP_ID Sample.APP_KEY) [Legacy.Submit] in
  Legacy.mounted sys = true ∧
  Legacy.search (Legacy.state sys) = "" ∧
  Legacy.sent (Legacy.step Sample.APP_ID Sample.APP_KEY sys Legacy.Submit)
  = Legacy.sent sys.
Proof. repeat split. Qed.

Lemma legacy_empty_commit_fetches_witness :
  let sys :=
    Legacy.run Sample.APP_ID Sample.APP_KEY
      (Legacy.mount Sample.APP_ID Sample.APP_KEY) [] in
  Legacy.sent (Legacy.step Sample.APP_ID Sample.APP_KEY sys Legacy.Submit)
  = [ "https://api.edamam.com/search?q=chicken&app_id=app-id&app_key=app-key";
      "https://api.edamam.com/search?q=&app_id=app-id&app_key=app-key" ].
Proof.
  intros sys.
  exact (proj1 (proj2
    (legacy_empty_commit_fetches Sample.APP_ID Sample.APP_KEY []
       eq_refl eq_refl ltac:(discriminate)))).
Defined.

(** * Properties of the [useQuery] component *)

Section ModernProperties.
Import Js Modern.

Variable retry : nat.

Abbreviation mstep := (Modern.step retry).
Abbreviation mrun := (Modern.run retry).

Lemma modern_observe_state sys : state (observe sys) = state sys.
Proof.
  unfold observe. case_decide; [done|].
  destruct (cache sys !! _) as [q|]; [destruct (fetching q)|]; done.
Qed.

Lemma modern_observe_inv sys : Inv (observe sys).
Proof.
  unfold Inv. rewrite modern_observe_state. unfold observe.
  case_decide; [done|].
  destruct (cache sys !! _) as [q|]; [destruct (fetching q)|]; done.
Qed.

Lemma modern_observe_same sys : Inv sys → observe sys = sys.
Proof. unfold Inv, observe. intros H. by rewrite decide_True. Qed.

(** An update that leaves [query] as it is changes the state and nothing
    else. *)
Lemma modern_update_same_query s sys :
  Inv sys → query s = query (state sys) →
  update s sys =
    {| state := s; cache := cache sys; observed := observed sys;
       inflight := inflight sys; nextId := nextId sys; sent := sent sys |}.
Proof.
  intros Hinv Hq. unfold update. apply modern_observe_same.
  unfold Inv, queryKey in *. simpl. by rewrite Hq.
Qed.

Lemma modern_settle_state id o sys : state (settle retry id o sys) = state sys.
Proof.
  unfold settle. destruct (inflight sys !! id); [|done].
  destruct (cache sys !! _); [|done].
  destruct (fetchRecipes_settle o); [done|]. by case_bool_decide.
Qed.

Lemma modern_settle_observed id o sys :
  observed (settle retry id o sys) = observed sys.
Proof.
  unfold settle. destruct (inflight sys !! id); [|done].
  destruct (cache sys !! _); [|done].
  destruct (fetchRecipes_settle o); [done|]. by case_bool_decide.
Qed.

Lemma modern_step_inv sys e : Inv sys → Inv (mstep sys e).
Proof.
  intros Hinv.
  assert (Hs : ∀ id o, Inv (settle retry id o sys)).
  { intros. unfold Inv. by rewrite modern_settle_observed, modern_settle_state. }
  destruct e; simpl; try apply Hs;
    destruct (view sys) as [| |? ? results modal]; try done;
    try apply modern_observe_inv.
  - destruct results as [cards|]; [|done].
    destruct (cards !! index); [apply modern_observe_inv | done].
  - destruct modal; [apply modern_observe_inv | done].
Qed.

Lemma modern_mount_inv : Inv mount.
Proof. apply modern_observe_inv. Qed.

Lemma modern_run_inv es : Inv (mrun mount es).
Proof.
  unfold Modern.run. generalize modern_mount_inv. generalize mount.
  induction es as [|e es IH]; intros sys Hs; simpl; [done|].
  apply IH, modern_step_inv, Hs.
Qed.

(** What is on display depends on the cache only through the entry of the
    committed query. *)
Lemma modern_view_cache sys sys' :
  state sys' = state sys →
  cache sys' !! queryKey (state sys) = cache sys !! queryKey (state sys) →
  view sys' = view sys.
Proof.
  intros Hs Hc. unfold view, result, useQuery. by rewrite Hs, Hc.
Qed.

(** X13 (the [useQuery] side of C1): the settlement of a request whose
    key is not the key of the committed query changes nothing of what is
    on display, whatever it carries. *)
Lemma modern_stale_settle_keeps_view sys id o k :
  inflight sys !! id = Some k →
  k ≠ queryKey (state sys) →
  view (mstep sys (Settle id o)) = view sys ∧
  state (mstep sys (Settle id o)) = state sys.
Proof.
  intros Hid Hk. split; [|apply modern_settle_state].
  apply modern_view_cache; [apply modern_settle_state|].
  simpl. unfold settle. rewrite Hid.
  destruct (cache sys !! k) as [q|] eqn:Hq; [|done].
  destruct (fetchRecipes_settle o); simpl.
  - by rewrite lookup_insert_ne.
  - case_bool_decide; simpl; by rewrite lookup_insert_ne.
Qed.

(** C2 and C3, on the [useQuery] component: when the query function of
    the committed query is rejected and no retry is left, the error screen
    with the message of the rejection replaces the page, results
    included. *)
Lemma modern_rejection_reported sys id o q m :
  inflight sys !! id = Some (queryKey (state sys)) →
  cache sys !! queryKey (state sys) = Some q →
  fetchRecipes_settle o = Rejected m →
  (retry ≤ failureCount q)%nat →
  view (mstep sys (Settle id o)) = ErrorScreen m ∧
  fetchStatus (result (mstep sys (Settle id o))) = Failure m.
Proof.
  intros Hid Hq Ho Hr.
  assert (Hres : result (mstep sys (Settle id o)) =
    {| recipes := data q; isLoading := false; result_error := Some m |}).
  { change (mstep sys (Settle id o)) with (settle retry id o sys).
    unfold result. rewrite modern_settle_state. unfold settle.
    rewrite Hid, Hq, Ho. rewrite bool_decide_false by lia. simpl.
    unfold useQuery. rewrite lookup_insert_eq. simpl.
    done. }
  unfold view. rewrite Hres. done.
Qed.

Lemma fetchRecipes_not_ok r :
  ok r = false →
  fetchRecipes_settle (Responds r) = Rejected "Network response was not ok".
Proof. intros H. simpl. by rewrite H. Qed.

(** While a retry is left, a rejection is followed by one more request
    for the same key. *)
Lemma modern_rejection_retried sys id o q k m :
  inflight sys !! id = Some k →
  cache sys !! k = Some q →
  fetchRecipes_settle o = Rejected m →
  (failureCount q < retry)%nat →
  sent (mstep sys (Settle id o)) = (sent sys ++ [fetchRecipes_url k])%list.
Proof.
  intros Hid Hq Ho Hr. simpl. unfold settle.
  rewrite Hid, Hq, Ho. by rewrite bool_decide_true.
Qed.

(** C4, on the [useQuery] component: a success with an empty list is
    rendered as the "No recipes found" block. *)
Lemma modern_empty_success_no_results sys :
  fetchStatus (result sys) = Success [] →
  view sys =
    Page (searchTerm (state sys)) (query (state sys)) NoRecipesFound
      (detail <$> selectedRecipe (state sys)).
Proof.
  unfold view, render, fetchStatus.
  destruct (isLoading (result sys)); [done|].
  destruct (result_error (result sys)); [done|].
  destruct (recipes (result sys)) as [l|]; [|done].
  intros [= ->]. done.
Qed.

(** C7, on the [useQuery] component: in every reachable state, a commit
    of a draft equal to the committed query sends nothing and leaves the
    cache as it is. *)
Lemma modern_resubmit_sends_nothing (es : list Event) :
  let sys := mrun mount es in
  searchTerm (state sys) = query (state sys) →
  sent (mstep sys Submit) = sent sys ∧
  inflight (mstep sys Submit) = inflight sys ∧
  cache (mstep sys Submit) = cache sys.
Proof.
  intros sys Hs. simpl.
  destruct (view sys); try done.
  rewrite modern_update_same_query; [done | apply modern_run_inv | done].
Qed.

Lemma modern_step_click sys input heading cards modal index c :
  view sys = Page input heading (Grid cards) modal →
  cards !! index = Some c →
  mstep sys (ClickCard index)
  = update (setSelectedRecipe (Some (card_onClick c)) (state sys)) sys.
Proof. intros Hv Hc. simpl. by rewrite Hv, Hc. Qed.

Lemma modern_step_close sys input heading results d :
  view sys = Page input heading results (Some d) →
  mstep sys ClickClose = update (setSelectedRecipe None (state sys)) sys.
Proof. intros Hv. simpl. by rewrite Hv. Qed.

(** The page of a success with a list that is not empty. *)
Lemma modern_success_view s cache l :
  fetchStatus (useQuery cache (queryKey s)) = Success l →
  (0 < length l)%nat →
  render s (useQuery cache (queryKey s))
  = Page (searchTerm s) (query s) (Grid (imap card l))
      (detail <$> selectedRecipe s).
Proof.
  unfold fetchStatus, render.
  destruct (isLoading _); [done|].
  destruct (result_error _); [done|].
  destruct (recipes _) as [l'|]; [|done].
  intros [= ->] Hlen. by rewrite bool_decide_true.
Qed.

End ModernProperties.

(** * Properties of both components *)

(** C5: the commit handler copies the draft into the committed query and
    clears the selection.  In the [useQuery] component this is
    [handleSearchSubmit], also reached from [handleKeyPress] on "Enter"; in
    the [useEffect] component it is [getSearch], whose state has no
    selection to clear. *)
Theorem commit_copies_draft_and_clears_selection :
  (∀ s : Modern.State,
     Modern.query (Modern.handleSearchSubmit s) = Modern.searchTerm s ∧
     Modern.selectedRecipe (Modern.handleSearchSubmit s) = None ∧
     Modern.handleKeyPress "Enter" s = Modern.handleSearchSubmit s) ∧
  (∀ s : Legacy.State,
     Legacy.query (Legacy.getSearch s) = Legacy.search s).
Proof. split; intros s; repeat split. Qed.

(** C7, amended: in every reachable state of either component, a commit
    of a draft equal to the committed query sends no request and leaves the
    requests in flight as they are (and the cache, in the [useQuery]
    component): the dependency list [[query]] of the effect and the query
    key [['recipes', query]] are unchanged by such a commit. *)
Theorem resubmitting_committed_query_is_silent :
  (∀ (APP_ID APP_KEY : string) (es : list Legacy.Event),
     let sys := Legacy.run APP_ID APP_KEY (Legacy.mount APP_ID APP_KEY) es in
     Legacy.search (Legacy.state sys) = Legacy.query (Legacy.state sys) →
     Legacy.sent (Legacy.step APP_ID APP_KEY sys Legacy.Submit) = Legacy.sent sys ∧
     Legacy.inflight (Legacy.step APP_ID APP_KEY sys Legacy.Submit)
     = Legacy.inflight sys) ∧
  (∀ (retry : nat) (es : list Modern.Event),
     let sys := Modern.run retry Modern.mount es in
     Modern.searchTerm (Modern.state sys) = Modern.query (Modern.state sys) →
     Modern.sent (Modern.step retry sys Modern.Submit) = Modern.sent sys ∧
     Modern.inflight (Modern.step retry sys Modern.Submit) = Modern.inflight sys ∧
     Modern.cache (Modern.step retry sys Modern.Submit) = Modern.cache sys).
Proof.
  split.
  - intros. by apply legacy_resubmit_sends_nothing.
  - intros. by apply modern_resubmit_sends_nothing.
Qed.

Lemma resubmitting_committed_query_is_silent_witness :
  (let sys :=
     Legacy.run Sample.APP_ID Sample.APP_KEY
       (Legacy.mount Sample.APP_ID Sample.APP_KEY)
       [Legacy.Change "rice"; Legacy.Submit; Legacy.Change "rice"] in
   Legacy.sent (Legacy.step Sample.APP_ID Sample.APP_KEY sys Legacy.Submit)
   = Legacy.sent sys) ∧
  (let sys :=
     Modern.run 3 Modern.mount
       [Modern.Settle 0 (Sample.ok [Sample.hit "soup" None]);
        Modern.Change "chicken"] in
   Modern.sent (Modern.step 3 sys Modern.Submit) = Modern.sent sys).
Proof.
  split.
  - exact (proj1 (proj1 resubmitting_committed_query_is_silent Sample.APP_ID Sample.APP_KEY
                    [Legacy.Change "rice"; Legacy.Submit; Legacy.Change "rice"]
                    eq_refl)).
  - exact (proj1 (proj2 resubmitting_committed_query_is_silent 3
                    [Modern.Settle 0 (Sample.ok [Sample.hit "soup" None]);
                     Modern.Change "chicken"]
                    eq_refl)).
Defined.

(** C7, as stated, fails on both components: with "chicken" committed, the
    draft "chicken" is submitted; the only request ever sent is the one of
    the mount. *)
Lemma resubmit_no_second_fetch :
  Legacy.sent
    (Legacy.run Sample.APP_ID Sample.APP_KEY
       (Legacy.mount Sample.APP_ID Sample.APP_KEY)
       [Legacy.Change "chicken"; Legacy.Submit])
  = [ "https://api.edamam.com/search?q=chicken&app_id=app-id&app_key=app-key" ] ∧
  Modern.sent
    (Modern.run 3 Modern.mount
       [Modern.Settle 0 (Sample.ok [Sample.hit "soup" None]);
        Modern.Change "chicken"; Modern.Submit])
  = [ "https://www.edamam.com/api/recipes/v2?type=public&q=chicken" ].
Proof. split; reflexivity. Qed.

Section ModernBehaviour.
Import Js Modern.

(** C8: in every reachable state whose fetch status is a success with
    the list [l], a click on card [i] selects the recipe of [l !! i] and
    opens the detail view built from that record, and closing it clears
    the selection; neither step sends a request or touches the cache, and
    the fetch status stays the success with [l]. *)
Theorem select_then_close (retry : nat) (es : list Event)
    (l : list RecipeHit) (i : nat) (hit : RecipeHit) :
  let sys := run retry mount es in
  fetchStatus (result sys) = Success l →
  l !! i = Some hit →
  let opened := step retry sys (ClickCard i) in
  let closed := step retry opened ClickClose in
  (selectedRecipe (state opened) = Some (recipe hit) ∧
   view opened =
     Page (searchTerm (state sys)) (query (state sys)) (Grid (imap card l))
       (Some (detail (recipe hit))) ∧
   sent opened = sent sys ∧ inflight opened = inflight sys ∧
   cache opened = cache sys ∧
   fetchStatus (result opened) = Success l) ∧
  (selectedRecipe (state closed) = None ∧
   view closed =
     Page (searchTerm (state sys)) (query (state sys)) (Grid (imap card l))
       None ∧
   sent closed = sent sys ∧ inflight closed = inflight sys ∧
   cache closed = cache sys ∧
   fetchStatus (result closed) = Success l).
Proof.
  intros sys Hst Hl opened closed.
  pose proof (modern_run_inv retry es) as Hinv. fold sys in Hinv.
  assert (Hlen : (0 < length l)%nat) by (apply lookup_lt_Some in Hl; lia).
  pose proof (modern_success_view (state sys) (cache sys) l Hst Hlen) as Hv.
  assert (Hopened : opened =
    {| state := setSelectedRecipe (Some (recipe hit)) (state sys);
       cache := cache sys; observed := observed sys;
       inflight := inflight sys; nextId := nextId sys; sent := sent sys |}).
  { unfold opened.
    erewrite modern_step_click;
      [| exact Hv | by rewrite list_lookup_imap, Hl].
    by apply modern_update_same_query. }
  assert (Hvo : view opened =
    Page (searchTerm (state sys)) (query (state sys)) (Grid (imap card l))
      (Some (detail (recipe hit)))).
  { rewrite Hopened.
    exact (modern_success_view
             (setSelectedRecipe (Some (recipe hit)) (state sys))
             (cache sys) l Hst Hlen). }
  assert (Hclosed : closed =
    {| state := setSelectedRecipe None (state opened);
       cache := cache sys; observed := observed sys;
       inflight := inflight sys; nextId := nextId sys; sent := sent sys |}).
  { unfold closed. erewrite modern_step_close; [| exact Hvo].
    rewrite modern_update_same_query; [by rewrite Hopened | | done].
    rewrite Hopened. exact Hinv. }
  assert (Hvc : view closed =
    Page (searchTerm (state sys)) (query (state sys)) (Grid (imap card l))
      None).
  { rewrite Hclosed, Hopened.
    exact (modern_success_view
             (setSelectedRecipe None
                (setSelectedRecipe (Some (recipe hit)) (state sys)))
             (cache sys) l Hst Hlen). }
  split.
  - rewrite Hvo. rewrite Hopened. repeat split; done.
  - rewrite Hvc. rewrite Hclosed, Hopened. repeat split; done.
Qed.

(** C10: the calories of a card, the calories per serving of the detail
    view and every value of the nutrient grid are [Math.round] of a
    quotient whose divisor is [yield || 4]: the yield when it is a number
    other than zero and [NaN], and 4 when it is missing, zero or [NaN].
    The divisor is never zero and never [NaN], so a quantity of zero is
    shown as zero. *)
Theorem per_serving_divisor_not_zero (r : Recipe) :
  let d := or_else (yield r) (of_Z 4) in
  is_zero d = false ∧
  is_nan d = false ∧
  d = (if truthy_opt (yield r) then default (of_Z 4) (yield r) else of_Z 4) ∧
  (∀ index, card_cal (card index {| recipe := r |})
            = Math_round (div (calories r) d)) ∧
  detail_cal (detail r) = Math_round (div (calories r) d) ∧
  detail_servings (detail r) = d ∧
  (∀ nutrient,
     nutrientCell r nutrient =
       (fun value =>
          {| cell_key := key nutrient;
             cell_value := Math_round (div (Nutrient.quantity value) d);
             cell_unit := nunit nutrient;
             cell_label := nlabel nutrient |})
         <$> (totalNutrients r ≫= (.!! key nutrient))) ∧
  (∀ s, is_zero (Math_round (div (S754_zero s) d)) = true).
Proof.
  intros d. unfold d, or_else, truthy_opt.
  split_and!.
  - destruct (yield r) as [[| | |]|]; done.
  - destruct (yield r) as [[| | |]|]; done.
  - destruct (yield r) as [[| | |]|]; done.
  - done.
  - done.
  - done.
  - intros nutrient. unfold nutrientCell.
    by destruct (totalNutrients r ≫= _).
  - intros s. destruct (yield r) as [[| | |]|]; done.
Qed.

End ModernBehaviour.

Lemma select_then_close_witness :
  let sys :=
    Modern.run 3 Modern.mount
      [Modern.Settle 0
         (Sample.ok [Sample.hit "soup" None; Sample.hit "stew" (Some (Js.of_Z 2))])] in
  Modern.selectedRecipe (Modern.state (Modern.step 3 sys (Modern.ClickCard 1)))
  = Some (Sample.recipe "stew" (Some (Js.of_Z 2))) ∧
  Modern.selectedRecipe
    (Modern.state
       (Modern.step 3 (Modern.step 3 sys (Modern.ClickCard 1)) Modern.ClickClose))
  = None ∧
  Modern.sent
    (Modern.step 3 (Modern.step 3 sys (Modern.ClickCard 1)) Modern.ClickClose)
  = Modern.sent sys.
Proof.
  intros sys.
  pose proof
    (select_then_close 3
       [Modern.Settle 0
          (Sample.ok [Sample.hit "soup" None; Sample.hit "stew" (Some (Js.of_Z 2))])]
       [Sample.hit "soup" None; Sample.hit "stew" (Some (Js.of_Z 2))]
       1 (Sample.hit "stew" (Some (Js.of_Z 2)))
       eq_refl eq_refl) as [[H1 _] [H2 [_ [H3 _]]]].
  exact (conj H1 (conj H2 H3)).
Defined.

(** * Further properties of the [useState]/[useEffect] component *)

Section LegacyTraces.
Import Legacy.

Variables APP_ID APP_KEY : string.

Abbreviation step := (Legacy.step APP_ID APP_KEY).
Abbreviation run := (Legacy.run APP_ID APP_KEY).
Abbreviation mount := (Legacy.mount APP_ID APP_KEY).
Abbreviation url := (Legacy.url APP_ID APP_KEY).
Abbreviation update := (Legacy.update APP_ID APP_KEY).

(** An update that leaves [query] as it is, in a state whose effect has run
    for that query, sends nothing. *)
Lemma legacy_update_quiet s sys :
  deps sys = Some (query s) →
  sent (update s sys) = sent sys ∧
  inflight (update s sys) = inflight sys ∧
  state (update s sys) = s.
Proof.
  intros Hd. unfold Legacy.update. destruct (render s); [|done].
  unfold Legacy.useEffect. simpl. by rewrite decide_True.
Qed.

Lemma legacy_step_change sys value :
  Inv sys → mounted sys = true →
  step sys (Change value) = with_state (updateSearch value (state sys)) sys.
Proof.
  intros Hinv Hm. destruct (Hinv Hm) as [[l Hl] Hd].
  simpl. rewrite Hm. unfold Legacy.update, render. simpl. rewrite Hl.
  unfold Legacy.useEffect. simpl. by rewrite decide_True.
Qed.

Lemma legacy_step_submit_mounted sys :
  Inv sys → mounted sys = true → mounted (step sys Submit) = true.
Proof.
  intros Hinv Hm. destruct (Hinv Hm) as [[l Hl] Hd].
  simpl. rewrite Hm. unfold Legacy.update, render. simpl. rewrite Hl.
  by rewrite useEffect_mounted.
Qed.

Lemma legacy_step_submit_state sys :
  Inv sys → mounted sys = true → state (step sys Submit) = getSearch (state sys).
Proof.
  intros Hinv Hm. destruct (Hinv Hm) as [[l Hl] Hd].
  simpl. rewrite Hm. unfold Legacy.update, render. simpl. rewrite Hl.
  by rewrite useEffect_state.
Qed.

Lemma legacy_run_snoc sys es e : run sys (es ++ [e]) = step (run sys es) e.
Proof. unfold Legacy.run. by rewrite foldl_app. Qed.

(** X1: Only a submit sends a request.  In every reachable state, a change of
    the search bar and the settlement of a request, whatever it carries,
    leave the requests sent, the requests expected and the committed query
    as they are: nothing is fetched per keystroke, and nothing is fetched
    again after a response or a failure. *)
Theorem legacy_only_submit_sends (es : list Event) (e : Event) :
  let sys := run mount es in
  e ≠ Submit →
  sent (step sys e) = sent sys ∧
  query (state (step sys e)) = query (state sys) ∧
  nextId (step sys e) = nextId sys.
Proof.
  intros sys He. pose proof (legacy_run_inv APP_ID APP_KEY es) as Hinv.
  fold sys in Hinv. destruct e as [value| |id o]; [|done|].
  - destruct (mounted sys) eqn:Hm.
    + by rewrite legacy_step_change.
    + simpl. by rewrite Hm.
  - simpl. destruct (inflight sys !! id); [|done].
    destruct (getRecipes_settle o) as [hits|m]; [|done].
    simpl. destruct (mounted sys) eqn:Hm; [|done].
    destruct (Hinv Hm) as [_ Hd].
    unfold Legacy.update. destruct (render _); [|done].
    unfold Legacy.useEffect. simpl. by rewrite decide_True.
Qed.

(** X2: Typing a draft and submitting it: when the draft differs from the
    committed query, the draft becomes the committed query, the search bar
    is cleared, the list on display is kept until a response arrives, and
    exactly one request is sent, for the URL of the draft. *)
Theorem legacy_type_then_submit (es : list Event) (v : string) :
  let sys := run mount es in
  mounted sys = true →
  v ≠ query (state sys) →
  let sys' := run sys [Change v; Submit] in
  query (state sys') = v ∧
  search (state sys') = "" ∧
  recipes (state sys') = recipes (state sys) ∧
  sent sys' = (sent sys ++ [url v])%list.
Proof.
  intros sys Hm Hv sys'.
  pose proof (legacy_run_inv APP_ID APP_KEY es) as Hinv. fold sys in Hinv.
  unfold sys'.
  change (run sys [Change v; Submit]) with (step (step sys (Change v)) Submit).
  rewrite (legacy_step_change sys v Hinv Hm).
  set (sys1 := with_state (updateSearch v (state sys)) sys).
  assert (Hinv1 : Inv sys1).
  { intros _. destruct (Hinv Hm) as [Hl Hd]. split; done. }
  destruct (legacy_submit_sent APP_ID APP_KEY sys1 Hinv1 Hm)
    as (H1 & H2 & H3 & _).
  rewrite (legacy_step_submit_state sys1 Hinv1 Hm).
  split_and!; [done..|].
  rewrite H3. simpl. by rewrite decide_False.
Qed.

(** X3: Two submits in a row: [getSearch] clears the draft, so the second
    submit commits the empty draft.  When the draft was not empty, the
    committed query ends empty and the last request sent is the one for
    the empty query. *)
Theorem legacy_double_submit_commits_empty (es : list Event) :
  let sys := run mount es in
  mounted sys = true →
  search (state sys) ≠ "" →
  let twice := run sys [Submit; Submit] in
  query (state twice) = "" ∧
  search (state twice) = "" ∧
  sent twice = (sent (step sys Submit) ++ [url ""])%list.
Proof.
  intros sys Hm Hs twice.
  pose proof (legacy_run_inv APP_ID APP_KEY es) as Hinv. fold sys in Hinv.
  pose proof (legacy_step_inv APP_ID APP_KEY sys Submit Hinv) as Hinv1.
  pose proof (legacy_step_submit_mounted sys Hinv Hm) as Hm1.
  destruct (legacy_submit_sent APP_ID APP_KEY sys Hinv Hm) as (Hq & Hs1 & _).
  destruct (legacy_submit_sent APP_ID APP_KEY _ Hinv1 Hm1)
    as (H1 & H2 & H3 & _).
  unfold twice.
  change (run sys [Submit; Submit]) with (step (step sys Submit) Submit).
  rewrite H1, H2, H3, Hs1, Hq. by rewrite decide_False.
Qed.

(** Once the component is unmounted no event changes its state or sends a
    request. *)
Lemma legacy_unmounted_frozen sys es :
  mounted sys = false →
  mounted (run sys es) = false ∧
  state (run sys es) = state sys ∧
  sent (run sys es) = sent sys.
Proof.
  revert sys. induction es as [|e es IH]; intros sys Hm; [done|].
  assert (Hstep : mounted (step sys e) = false ∧
                  state (step sys e) = state sys ∧
                  sent (step sys e) = sent sys).
  { destruct e as [value| |id o]; simpl; rewrite ?Hm; try done.
    destruct (inflight sys !! id); [|done].
    destruct (getRecipes_settle o); simpl; rewrite ?Hm; done. }
  destruct Hstep as (Hm' & Hs' & Ht').
  destruct (IH (step sys e) Hm') as (H1 & H2 & H3).
  unfold Legacy.run in *. simpl. rewrite H2, H3. done.
Qed.

(** X4: A response whose JSON body is a value other than [null] without
    [hits], whatever its status, is fatal: [setRecipes(undefined)] makes
    the render throw, and from then on nothing is rendered and nothing is
    sent, whatever happens next.  A body that is [null] is not: reading
    [data.hits] throws inside [getRecipes], [setRecipes] is not called, the
    state is kept and the component stays mounted, with one more rejection
    that nobody handles. *)
Theorem legacy_missing_hits_is_fatal (es es' : list Event) (id : nat)
    (u : string) (r : Response) :
  let sys := run mount es in
  mounted sys = true →
  inflight sys !! id = Some u →
  let settled := step sys (Settle id (Responds r)) in
  (json r = Parsed None →
   mounted (run settled es') = false ∧
   render (state (run settled es')) = None ∧
   sent (run settled es') = sent sys) ∧
  (∀ m, json r = ParsedNull m →
   state settled = state sys ∧
   mounted settled = true ∧
   sent settled = sent sys ∧
   unhandled settled = (unhandled sys ++ [m])%list).
Proof.
  intros sys Hm Hid settled. split.
  - intros Hr.
    assert (Hc : mounted settled = false ∧ recipes (state settled) = None ∧
                 sent settled = sent sys).
    { unfold settled. simpl. rewrite Hid, Hr. simpl. rewrite Hm. done. }
    destruct Hc as (Hcm & Hcr & Hcs).
    destruct (legacy_unmounted_frozen settled es' Hcm) as (H1 & H2 & H3).
    rewrite H1, H2, H3. unfold render. by rewrite Hcr.
  - intros m Hr. unfold settled. simpl. rewrite Hid, Hr. simpl. done.
Qed.

End LegacyTraces.

(** * Further properties of the [useQuery] component *)

Section ModernTraces.
Import Js Modern.

Variable retry : nat.

Abbreviation mstep := (Modern.step retry).
Abbreviation mrun := (Modern.run retry).

Lemma modern_update_id sys : Inv sys → update (state sys) sys = sys.
Proof.
  intros Hinv. rewrite modern_update_same_query by done. by destruct sys.
Qed.

Lemma modern_update_state s sys : state (update s sys) = s.
Proof. unfold update. by rewrite modern_observe_state. Qed.

(** X5: Only a commit sends a request.  In every reachable state, a change of
    the input, a key other than Enter, a click on a card and a click on a
    close button leave the requests sent, the requests expected, the cache
    and the committed query as they are. *)
Theorem modern_only_commit_sends (es : list Event) (e : Event) :
  let sys := mrun mount es in
  match e with
  | Submit | Settle _ _ => False
  | KeyPress key => key ≠ "Enter"
  | Change _ | ClickCard _ | ClickClose => True
  end →
  sent (mstep sys e) = sent sys ∧
  inflight (mstep sys e) = inflight sys ∧
  cache (mstep sys e) = cache sys ∧
  query (state (mstep sys e)) = query (state sys).
Proof.
  intros sys He. pose proof (modern_run_inv retry es) as Hinv.
  fold sys in Hinv.
  destruct e as [value| |key|index| |id o]; try done; simpl;
    destruct (view sys) as [| |? ? results modal]; try done.
  - by rewrite modern_update_same_query.
  - unfold handleKeyPress. rewrite decide_False by done.
    by rewrite modern_update_same_query.
  - destruct results as [cards|]; [|done].
    destruct (cards !! index); [|done].
    by rewrite modern_update_same_query.
  - destruct modal; [|done]. by rewrite modern_update_same_query.
Qed.

(** X6: A commit is idempotent.  In every reachable state a second submit
    changes nothing, and so does the submit event of the form that follows
    the Enter key handled by [handleKeyPress]: both commit once. *)
Theorem modern_commit_idempotent (es : list Event) :
  let sys := mrun mount es in
  mstep (mstep sys Submit) Submit = mstep sys Submit ∧
  mstep (mstep sys (KeyPress "Enter")) Submit = mstep sys Submit.
Proof.
  intros sys. pose proof (modern_run_inv retry es) as Hinv.
  fold sys in Hinv.
  assert (Hk : mstep sys (KeyPress "Enter") = mstep sys Submit) by done.
  rewrite Hk.
  enough (mstep (mstep sys Submit) Submit = mstep sys Submit) by done.
  pose proof (modern_step_inv retry sys Submit Hinv) as Hinv1.
  assert (Hs : handleSearchSubmit (state (mstep sys Submit))
               = state (mstep sys Submit) ∨ mstep sys Submit = sys).
  { simpl. destruct (view sys); [by right..|]. left.
    by rewrite modern_update_state. }
  destruct Hs as [Hs|Hs].
  - change (mstep (mstep sys Submit) Submit) with
      (match view (mstep sys Submit) with
       | Page _ _ _ _ =>
           update (handleSearchSubmit (state (mstep sys Submit)))
             (mstep sys Submit)
       | _ => mstep sys Submit
       end).
    destruct (view (mstep sys Submit)); [done..|].
    rewrite Hs. by apply modern_update_id.
  - rewrite Hs at 1. done.
Qed.

(** X7: A commit closes the detail view: whatever the state, the tree rendered
    after a submit has no modal. *)
Theorem modern_commit_closes_modal (sys : Sys) input heading results d :
  view (mstep sys Submit) ≠ Page input heading results (Some d).
Proof.
  simpl. destruct (view sys) eqn:Hv; [by rewrite Hv..|].
  unfold view. rewrite modern_update_state. unfold render.
  destruct (isLoading _); [done|].
  destruct (result_error _); done.
Qed.


(** X9: A response whose status is not OK never changes the data the cache
    holds for any key, whatever its body: only the error, the failure count
    and the fetching flag of its query can change. *)
Theorem modern_not_ok_keeps_data (sys : Sys) (id : nat) (r : Response)
    (k : QueryKey) :
  ok r = false →
  data <$> (cache (mstep sys (Settle id (Responds r))) !! k)
  = data <$> (cache sys !! k).
Proof.
  intros Hok.
  change (mstep sys (Settle id (Responds r)))
    with (settle retry id (Responds r) sys).
  unfold settle.
  destruct (inflight sys !! id) as [k0|]; [|done].
  destruct (cache sys !! k0) as [q|] eqn:Hq; [|done].
  rewrite (fetchRecipes_not_ok r Hok).
  case_bool_decide; simpl; rewrite lookup_insert;
    case_decide; subst; by rewrite ?Hq.
Qed.

(** X10: A response whose status is not OK, for the committed query: while a
    retry is left the same URL is requested once more, and otherwise the
    error screen with the message of [fetchRecipes] is rendered and nothing
    is sent. *)
Theorem modern_not_ok_shows_error (sys : Sys) (id : nat) (r : Response)
    (q : QueryState) :
  inflight sys !! id = Some (queryKey (state sys)) →
  cache sys !! queryKey (state sys) = Some q →
  ok r = false →
  let sys' := mstep sys (Settle id (Responds r)) in
  if bool_decide (failureCount q < retry)%nat then
    sent sys' = (sent sys ++ [fetchRecipes_url (queryKey (state sys))])%list
  else
    view sys' = ErrorScreen "Network response was not ok" ∧
    fetchStatus (result sys') = Failure "Network response was not ok" ∧
    sent sys' = sent sys.
Proof.
  intros Hid Hq Hok sys'. case_bool_decide as Hr.
  - eapply modern_rejection_retried; eauto using fetchRecipes_not_ok.
  - destruct (modern_rejection_reported retry sys id (Responds r) q _
                Hid Hq (fetchRecipes_not_ok r Hok) ltac:(lia)) as [H1 H2].
    split_and!; [done..|].
    unfold sys'.
    change (mstep sys (Settle id (Responds r)))
      with (settle retry id (Responds r) sys).
    unfold settle. rewrite Hid, Hq, (fetchRecipes_not_ok r Hok).
    by rewrite bool_decide_false.
Qed.

(** X11: A fulfilled fetch of the committed query: the page is rendered with
    the list of the response, as the grid of its cards or, when it is
    empty, as the "No recipes found" block; an earlier error is gone and
    nothing is sent. *)
Theorem modern_success_shown (sys : Sys) (id : nat) (o : Outcome)
    (l : list RecipeHit) :
  inflight sys !! id = Some (queryKey (state sys)) →
  is_Some (cache sys !! queryKey (state sys)) →
  fetchRecipes_settle o = Fulfilled l →
  let sys' := mstep sys (Settle id o) in
  fetchStatus (result sys') = Success l ∧
  view sys' =
    Page (searchTerm (state sys)) (query (state sys))
      match l with
      | [] => NoRecipesFound
      | _ :: _ => Grid (imap card l)
      end
      (detail <$> selectedRecipe (state sys)) ∧
  sent sys' = sent sys.
Proof.
  intros Hid [q Hq] Ho sys'.
  assert (Hres : result sys' =
    {| recipes := Some l; isLoading := false; result_error := None |}).
  { unfold sys'. change (mstep sys (Settle id o)) with (settle retry id o sys).
    unfold result. rewrite modern_settle_state. unfold settle.
    rewrite Hid, Hq, Ho. simpl. unfold useQuery.
    by rewrite lookup_insert_eq. }
  assert (Hst : state sys' = state sys) by apply modern_settle_state.
  unfold view. rewrite Hres, Hst. split_and!.
  - done.
  - unfold render. simpl. by destruct l.
  - unfold sys'.
    change (mstep sys (Settle id o)) with (settle retry id o sys).
    unfold settle. by rewrite Hid, Hq, Ho.
Qed.

(** X12: A commit of a draft the cache has no entry for, from the page: the
    loading screen replaces the page at once and one request is sent, for
    the URL of the draft. *)
Theorem modern_commit_new_query_loads (es : list Event) input heading
    results modal :
  let sys := mrun mount es in
  let k : QueryKey := ("recipes", searchTerm (state sys)) in
  view sys = Page input heading results modal →
  cache sys !! k = None →
  view (mstep sys Submit) = LoadingScreen ∧
  query (state (mstep sys Submit)) = searchTerm (state sys) ∧
  sent (mstep sys Submit) = (sent sys ++ [fetchRecipes_url k])%list ∧
  inflight (mstep sys Submit) !! nextId sys = Some k.
Proof.
  intros sys k Hv Hc. pose proof (modern_run_inv retry es) as Hinv.
  fold sys in Hinv.
  assert (Hk : queryKey (state sys) ≠ k).
  { intros Heq. revert Hv. unfold view, result, useQuery.
    rewrite Heq, Hc. done. }
  assert (Hstep : mstep sys Submit =
    startFetch k
      {| state := handleSearchSubmit (state sys); cache := cache sys;
         observed := Some k; inflight := inflight sys;
         nextId := nextId sys; sent := sent sys |}).
  { simpl. rewrite Hv. unfold update, observe. simpl.
    change (queryKey (handleSearchSubmit (state sys))) with k.
    rewrite decide_False by (rewrite Hinv; congruence).
    by rewrite Hc. }
  rewrite Hstep. unfold startFetch. simpl. rewrite Hc.
  split_and!; try done.
  - unfold view, result. simpl.
    change (queryKey (handleSearchSubmit (state sys))) with k.
    unfold useQuery. by rewrite lookup_insert_eq.
  - by rewrite lookup_insert_eq.
Qed.

End ModernTraces.

(** * Properties of the rendered cards and of the detail view *)

Section ModernRendering.
Import Js Modern.

Lemma replace_dashes_no_dash (s : string) :
  "-"%char ∉ list_ascii_of_string (replace_dashes s).
Proof.
  induction s as [|c s IH]; simpl.
  - apply not_elem_of_nil.
  - apply not_elem_of_cons. split; [|done].
    destruct (Ascii.eqb_spec c "-"); [done | congruence].
Qed.

Lemma replace_dashes_length (s : string) :
  String.length (replace_dashes s) = String.length s.
Proof. induction s as [|c s IH]; simpl; congruence. Qed.

Lemma replace_dashes_chars (s : string) :
  list_ascii_of_string (replace_dashes s)
  = (fun c => if Ascii.eqb c "-" then " "%char else c)
      <$> list_ascii_of_string s.
Proof. induction s as [|c s IH]; simpl; [done|]. by rewrite IH. Qed.

(** X14: The health labels of the detail view: the block is left out when
    the recipe has no label; else it shows the first eight labels, in
    their order, each with its characters kept except that every dash is
    replaced by a space, and "+N more" is shown exactly when there are more
    than eight labels, [N] being the number of labels left out. *)
Theorem detail_health_labels (r : Recipe) :
  (detail_healthLabels (detail r) = None ↔
   healthLabels r = None ∨ healthLabels r = Some []) ∧
  (∀ l, healthLabels r = Some l → l ≠ [] →
     ∃ shown more,
       detail_healthLabels (detail r) = Some (shown, more) ∧
       length shown = min 8 (length l) ∧
       (∀ i s0, (i < 8)%nat → l !! i = Some s0 →
          ∃ s, shown !! i = Some s ∧
               list_ascii_of_string s
               = (fun c => if Ascii.eqb c "-" then " "%char else c)
                   <$> list_ascii_of_string s0) ∧
       more = (if bool_decide (8 < length l)%nat
               then Some (length l - 8)%nat else None) ∧
       (∀ s, s ∈ shown → "-"%char ∉ list_ascii_of_string s)).
Proof.
  unfold detail. cbn [detail_healthLabels]. unfold nonEmpty. split.
  - destruct (healthLabels r) as [[|x l]|]; simpl; split; intros H;
      try done; try (by left); try (by right); by destruct H.
  - intros l Hl Hne. rewrite Hl. destruct l as [|x l]; [done|].
    rewrite bool_decide_true by (simpl; lia).
    exists (replace_dashes <$> take 8 (x :: l)),
      (if bool_decide (8 < length (x :: l))%nat
       then Some (length (x :: l) - 8)%nat else None).
    split; [reflexivity|].
    split_and!.
    + rewrite length_fmap, length_take. lia.
    + intros i s0 Hi Hs0. exists (replace_dashes s0). split.
      * rewrite list_lookup_fmap.
        rewrite (proj2 (lookup_take_Some (x :: l) 8 i s0) (conj Hs0 Hi)).
        done.
      * apply replace_dashes_chars.
    + done.
    + intros s Hs. apply list_elem_of_fmap in Hs as (s0 & -> & _).
      apply replace_dashes_no_dash.
Qed.

(** X15: The diet labels of a card: the block is left out when the recipe has
    no label; else it shows the first two labels and no other. *)
Theorem card_diet_labels (index : nat) (hit : RecipeHit) :
  (card_dietLabels (card index hit) = None ↔
   dietLabels (recipe hit) = None ∨ dietLabels (recipe hit) = Some []) ∧
  (∀ shown, card_dietLabels (card index hit) = Some shown →
     ∃ l, dietLabels (recipe hit) = Some l ∧ shown = take 2 l ∧
          (1 ≤ length shown ≤ 2)%nat).
Proof.
  unfold card. simpl. unfold nonEmpty. split.
  - destruct (dietLabels (recipe hit)) as [[|x l]|]; simpl; split; intros H;
      try done; try (by left); try (by right); by destruct H.
  - intros shown. destruct (dietLabels (recipe hit)) as [[|x l]|]; try done.
    rewrite bool_decide_true by (simpl; lia). intros [= <-].
    eexists. split; [done|]. split; [done|].
    destruct l; simpl; lia.
Qed.

(** X16: The meal type of the detail view: it is the first meal type of
    the recipe when there is one and it is not the empty string; it is
    "Any time" when the recipe has no meal type, an empty list of them, or
    the empty string as the first; so it is never empty. *)
Theorem detail_meal_type_shown (r : Recipe) :
  (∀ m rest, mealType r = Some (m :: rest) → m ≠ "" →
     detail_mealType (detail r) = m) ∧
  (mealType r = None ∨ mealType r = Some [] ∨
   (∃ rest, mealType r = Some ("" :: rest)) →
   detail_mealType (detail r) = "Any time") ∧
  detail_mealType (detail r) ≠ "".
Proof.
  unfold detail. cbn [detail_mealType]. split_and!.
  - intros m rest Hm Hne. rewrite Hm. simpl. by rewrite decide_False.
  - intros [Hm|[Hm|[rest Hm]]]; rewrite Hm; done.
  - destruct (mealType r) as [[|m rest]|]; simpl; try done.
    by case_decide.
Qed.

(** X17: The nutrient grid of the detail view: it is left out when the recipe
    has no [totalNutrients]; else it has one slot for each of the six
    nutrients of the table, in the order of the table, and a slot is filled
    exactly when [totalNutrients] has the key of its nutrient, with the
    unit and the label of the table. *)
Theorem detail_nutrient_grid (r : Recipe) :
  (detail_nutrients (detail r) = None ↔ totalNutrients r = None) ∧
  (∀ m, totalNutrients r = Some m →
     ∃ cells,
       detail_nutrients (detail r) = Some cells ∧
       length cells = 6 ∧
       ∀ i spec, nutrientSpecs !! i = Some spec →
         ∃ slot, cells !! i = Some slot ∧
           (is_Some slot ↔ is_Some (m !! key spec)) ∧
           ∀ cell, slot = Some cell →
             cell_key cell = key spec ∧ cell_unit cell = nunit spec ∧
             cell_label cell = nlabel spec).
Proof.
  unfold detail. cbn [detail_nutrients]. split.
  - by destruct (totalNutrients r).
  - intros m Hm. rewrite Hm. exists (nutrientCell r <$> nutrientSpecs).
    split; [reflexivity|].
    split; [by rewrite length_fmap|]. intros i spec Hi.
    rewrite list_lookup_fmap, Hi. simpl. eexists. split; [reflexivity|].
    unfold nutrientCell. rewrite Hm. simpl.
    destruct (m !! key spec) as [value|]; split.
    + split; eauto.
    + by intros cell [= <-].
    + split; intros [? ?]; done.
    + done.
Qed.

End ModernRendering.

(** * Instances on sample data *)

Lemma legacy_only_submit_sends_witness :
  Legacy.sent
    (Legacy.step Sample.APP_ID Sample.APP_KEY
       (Legacy.run Sample.APP_ID Sample.APP_KEY
          (Legacy.mount Sample.APP_ID Sample.APP_KEY) [Legacy.Change "ri"])
       (Legacy.Change "rice"))
  = [ "https://api.edamam.com/search?q=chicken&app_id=app-id&app_key=app-key" ].
Proof.
  exact (proj1 (legacy_only_submit_sends Sample.APP_ID Sample.APP_KEY
                  [Legacy.Change "ri"] (Legacy.Change "rice")
                  ltac:(discriminate))).
Defined.

Lemma legacy_type_then_submit_witness :
  Legacy.sent
    (Legacy.run Sample.APP_ID Sample.APP_KEY
       (Legacy.run Sample.APP_ID Sample.APP_KEY
          (Legacy.mount Sample.APP_ID Sample.APP_KEY) [])
       [Legacy.Change "rice"; Legacy.Submit])
  = [ "https://api.edamam.com/search?q=chicken&app_id=app-id&app_key=app-key";
      "https://api.edamam.com/search?q=rice&app_id=app-id&app_key=app-key" ].
Proof.
  exact (proj2 (proj2 (proj2
    (legacy_type_then_submit Sample.APP_ID Sample.APP_KEY [] "rice"
       eq_refl ltac:(discriminate))))).
Defined.

Lemma legacy_double_submit_commits_empty_witness :
  Legacy.query
    (Legacy.state
       (Legacy.run Sample.APP_ID Sample.APP_KEY
          (Legacy.run Sample.APP_ID Sample.APP_KEY
             (Legacy.mount Sample.APP_ID Sample.APP_KEY) [Legacy.Change "rice"])
          [Legacy.Submit; Legacy.Submit]))
  = "".
Proof.
  exact (proj1
    (legacy_double_submit_commits_empty Sample.APP_ID Sample.APP_KEY
       [Legacy.Change "rice"] eq_refl ltac:(discriminate))).
Defined.

Lemma legacy_missing_hits_is_fatal_witness :
  Legacy.render
    (Legacy.state
       (Legacy.run Sample.APP_ID Sample.APP_KEY
          (Legacy.step Sample.APP_ID Sample.APP_KEY
             (Legacy.run Sample.APP_ID Sample.APP_KEY
                (Legacy.mount Sample.APP_ID Sample.APP_KEY) [])
             (Legacy.Settle 0
                (Legacy.Responds
                   {| Legacy.ok := true; Legacy.json := Legacy.Parsed None |})))
          [Legacy.Change "rice"; Legacy.Submit]))
  = None.
Proof.
  exact (proj1 (proj2
    (proj1
       (legacy_missing_hits_is_fatal Sample.APP_ID Sample.APP_KEY []
          [Legacy.Change "rice"; Legacy.Submit] 0 _
          {| Legacy.ok := true; Legacy.json := Legacy.Parsed None |}
          eq_refl eq_refl)
       eq_refl))).
Defined.

Lemma modern_only_commit_sends_witness :
  Modern.sent
    (Modern.step 3
       (Modern.run 3 Modern.mount
          [Modern.Settle 0 (Sample.ok [Sample.hit "soup" None])])
       (Modern.ClickCard 0))
  = [ "https://www.edamam.com/api/recipes/v2?type=public&q=chicken" ].
Proof.
  exact (proj1
    (modern_only_commit_sends 3
       [Modern.Settle 0 (Sample.ok [Sample.hit "soup" None])]
       (Modern.ClickCard 0) I)).
Defined.


Lemma modern_not_ok_keeps_data_witness :
  let sys :=
    Modern.run 3 Modern.mount
      [Modern.Settle 0 (Sample.ok [Sample.hit "soup" None]);
       Modern.Change "rice"; Modern.Submit;
       Modern.Settle 1 (Sample.ok [Sample.hit "stew" None]);
       Modern.Change "chicken"; Modern.Submit] in
  Modern.data <$>
    (Modern.cache
       (Modern.step 3 sys
          (Modern.Settle 2
             (Modern.Responds
                {| Modern.ok := false;
                   Modern.json :=
                     Modern.Parsed {| Modern.hits := [Sample.hit "bad" None] |} |})))
       !! ("recipes", "chicken"))
  = Some (Some [Sample.hit "soup" None]).
Proof.
  intros sys.
  exact (modern_not_ok_keeps_data 3 sys 2
           {| Modern.ok := false;
              Modern.json :=
                Modern.Parsed {| Modern.hits := [Sample.hit "bad" None] |} |}
           ("recipes", "chicken") eq_refl).
Defined.

Lemma modern_not_ok_shows_error_witness :
  Modern.view
    (Modern.step 0 Modern.mount
       (Modern.Settle 0
          (Modern.Responds
             {| Modern.ok := false; Modern.json := Modern.Unparseable "<" |})))
  = Modern.ErrorScreen "Network response was not ok".
Proof.
  exact (proj1
    (modern_not_ok_shows_error 0 Modern.mount 0
       {| Modern.ok := false; Modern.json := Modern.Unparseable "<" |}
       {| Modern.data := None; Modern.error := None; Modern.fetching := true;
          Modern.failureCount := 0 |}
       eq_refl eq_refl eq_refl)).
Defined.

Lemma modern_success_shown_witness :
  Modern.fetchStatus
    (Modern.result
       (Modern.step 3 Modern.mount
          (Modern.Settle 0 (Sample.ok [Sample.hit "soup" None]))))
  = Modern.Success [Sample.hit "soup" None].
Proof.
  exact (proj1
    (modern_success_shown 3 Modern.mount 0
       (Sample.ok [Sample.hit "soup" None]) [Sample.hit "soup" None]
       eq_refl ltac:(by eexists) eq_refl)).
Defined.

Lemma modern_commit_new_query_loads_witness :
  Modern.view
    (Modern.step 3
       (Modern.run 3 Modern.mount
          [Modern.Settle 0 (Sample.ok [Sample.hit "soup" None]);
           Modern.Change "rice"])
       Modern.Submit)
  = Modern.LoadingScreen.
Proof.
  exact (proj1
    (modern_commit_new_query_loads 3
       [Modern.Settle 0 (Sample.ok [Sample.hit "soup" None]);
        Modern.Change "rice"] _ _ _ _ eq_refl eq_refl)).
Defined.

Lemma modern_stale_settle_keeps_view_witness :
  let sys :=
    Modern.run 3 Modern.mount
      [Modern.Settle 0 (Sample.ok [Sample.hit "soup" None]);
       Modern.Change "rice"; Modern.Submit;
       Modern.Settle 1 (Sample.ok [Sample.hit "stew" None]);
       Modern.Change "chicken"; Modern.Submit;
       Modern.Change "rice"; Modern.Submit;
       Modern.Settle 3 (Sample.ok [Sample.hit "risotto" None])] in
  Modern.view
    (Modern.step 3 sys (Modern.Settle 2 (Sample.ok [Sample.hit "wings" None])))
  = Modern.view sys.
Proof.
  intros sys.
  refine (proj1
    (modern_stale_settle_keeps_view 3 sys 2
       (Sample.ok [Sample.hit "wings" None]) ("recipes", "chicken") _ _)).
  - vm_compute. reflexivity.
  - vm_compute. discriminate.
Defined.

Lemma detail_health_labels_witness :
  ∃ shown more,
    Modern.detail_healthLabels (Modern.detail (Sample.recipe "soup" None))
    = Some (shown, more) ∧ length shown = 2 ∧ more = None.
Proof.
  destruct (proj2 (detail_health_labels (Sample.recipe "soup" None))
              ["Sugar-Conscious"; "Egg-Free"] eq_refl ltac:(discriminate))
    as (shown & more & H1 & H2 & _ & H4 & _).
  exists shown, more. split; [exact H1|]. split; [exact H2|]. exact H4.
Defined.

Lemma card_diet_labels_witness :
  ∃ l, Modern.dietLabels (Modern.recipe (Sample.hit "soup" None)) = Some l ∧
       ["Low-Carb"] = take 2 l.
Proof.
  destruct (proj2 (card_diet_labels 0 (Sample.hit "soup" None))
              ["Low-Carb"] eq_refl) as (l & H1 & H2 & _).
  exists l. by split.
Defined.

Lemma detail_meal_type_shown_witness :
  Modern.detail_mealType (Modern.detail (Sample.recipe "soup" None)) = "dinner".
Proof.
  exact (proj1 (detail_meal_type_shown (Sample.recipe "soup" None))
           "dinner" [] eq_refl ltac:(discriminate)).
Defined.

Lemma detail_nutrient_grid_witness :
  ∃ cells,
    Modern.detail_nutrients (Modern.detail (Sample.recipe "soup" None))
    = Some cells ∧ length cells = 6.
Proof.
  destruct (proj2 (detail_nutrient_grid (Sample.recipe "soup" None)) _ eq_refl)
    as (cells & H1 & H2 & _).
  exists cells. by split.
Defined.
